(** * AI study notes generator: the text pipeline of [app.py]

    A shallow embedding of the chunker, the summary assembler, the bullet
    formatter, the length table and the study-notes button handler of
    [src/app.py], with the properties the specification states about them.

    Python values are modelled as follows.
    - A [str] is the list of its Unicode code points, so that [len], slicing
      and [strip] count code points as Python does.
    - An [int] is a [Z].
    - A [dict] is a [gmap].
    - A raised exception is the [Raise] case of [result].
    - The summarization pipeline is an external callable that may fail and may
      keep state; calls to it are threaded through an explicit state that also
      records every call made. *)

From Stdlib Require Import ZArith List Lia String Ascii.
From stdpp Require Import base option list gmap.

Local Open Scope Z_scope.

(** ** Python strings *)

(** A Unicode code point. *)
Definition char := N.

(** A Python [str]. *)
Abbreviation pystr := (list char).

(** The [str] written by an ASCII literal. *)
Definition py (s : string) : pystr :=
  map N_of_ascii (list_ascii_of_string s).

(** [len(s)] *)
Definition len {A} (s : list A) : Z := Z.of_nat (length s).

(** ** Exceptions *)

Inductive exn : Type :=
| ValueError (msg : pystr)
| IndexError (msg : pystr)
| KeyError (key : pystr)
| OtherError (name msg : pystr).

Inductive result (A : Type) : Type :=
| Ok (a : A)
| Raise (e : exn).

Arguments Ok {A} a.
Arguments Raise {A} e.

(** ** Built-ins used by the chunker *)

(** Number of items of [range(lo, hi, step)] for a non-zero [step]. *)
Definition range_len (lo hi step : Z) : Z :=
  if (0 <? step) && (lo <? hi) then 1 + (hi - 1 - lo) / step
  else if (step <? 0) && (hi <? lo) then 1 + (lo - 1 - hi) / (- step)
  else 0.

(** [range(lo, hi, step)], which raises [ValueError] on a zero step. *)
Definition range (lo hi step : Z) : result (list Z) :=
  if step =? 0 then Raise (ValueError (py "range() arg 3 must not be zero"))
  else Ok (map (fun k => lo + Z.of_nat k * step)
               (seq 0 (Z.to_nat (range_len lo hi step)))).

(** Clamping of one slice bound into [0 .. n], a negative bound counting
    from the end. *)
Definition adjust_index (i n : Z) : Z :=
  if i <? 0 then (if i + n <? 0 then 0 else i + n)
  else if n <? i then n else i.

(** [s[i:j]] *)
Definition slice {A} (s : list A) (i j : Z) : list A :=
  let start := adjust_index i (len s) in
  let stop := adjust_index j (len s) in
  take (Z.to_nat (stop - start)) (drop (Z.to_nat start) s).

(** ** Chunker *)

(** Default of the [chunk_size] argument. *)
Definition default_chunk_size : Z := 1000.

(** [[text[i:i+chunk_size] for i in range(0, len(text), chunk_size)]] *)
Definition chunk_text (text : pystr) (chunk_size : Z) : result (list pystr) :=
  match range 0 (len text) chunk_size with
  | Raise e => Raise e
  | Ok starts => Ok (map (fun i => slice text i (i + chunk_size)) starts)
  end.

(** ** Ceiling of a quotient *)

Definition ceil_div (a b : Z) : Z := - ((- a) / b).

(** ** String built-ins used by the bullet formatter *)

(** The code points [str.strip()] removes: those Python classes as
    whitespace. *)
Definition is_space (c : char) : bool :=
  ((9 <=? c) && (c <=? 13) || (28 <=? c) && (c <=? 32) || (c =? 133)
   || (c =? 160) || (c =? 5760) || (8192 <=? c) && (c <=? 8202)
   || (c =? 8232) || (c =? 8233) || (c =? 8239) || (c =? 8287)
   || (c =? 12288))%N.

(** [s.lstrip()] *)
Fixpoint lstrip (s : pystr) : pystr :=
  match s with
  | [] => []
  | c :: s' => if is_space c then lstrip s' else s
  end.

(** [s.rstrip()] *)
Definition rstrip (s : pystr) : pystr := rev (lstrip (rev s)).

(** [s.strip()] *)
Definition strip (s : pystr) : pystr := rstrip (lstrip s).

(** [s.startswith(p)] *)
Fixpoint starts_with (p s : pystr) : bool :=
  match p, s with
  | [], _ => true
  | _ :: _, [] => false
  | a :: p', b :: s' => (a =? b)%N && starts_with p' s'
  end.

(** [sub in s] *)
Fixpoint contains (sub s : pystr) : bool :=
  starts_with sub s
  || match s with
     | [] => false
     | _ :: s' => contains sub s'
     end.

(** The scan of [s.split(sep)]: [cur] holds, reversed, the characters of the
    fragment being read, and [skip] counts the characters of a separator just
    matched that are still to be passed over. Separators are matched left to
    right and never overlap. *)
Fixpoint split_from (sep : pystr) (skip : nat) (cur s : pystr) : list pystr :=
  match s with
  | [] => [rev cur]
  | c :: s' =>
      match skip with
      | S k => split_from sep k cur s'
      | O =>
          if starts_with sep s
          then rev cur :: split_from sep (length sep - 1) [] s'
          else split_from sep 0 (c :: cur) s'
      end
  end.

(** [s.split(sep)] for a separator that is not empty (Python raises
    [ValueError] on an empty one; the program only splits on a literal). *)
Definition split (sep s : pystr) : list pystr :=
  match sep with
  | [] => [s]
  | _ :: _ => split_from sep 0 [] s
  end.

(** [sep.join(xs)] *)
Fixpoint join (sep : pystr) (xs : list pystr) : pystr :=
  match xs with
  | [] => []
  | [x] => x
  | x :: xs' => x ++ sep ++ join sep xs'
  end.

(** Truth value of a [str] in a condition. *)
Definition truthy (s : pystr) : bool :=
  match s with
  | [] => false
  | _ :: _ => true
  end.

(** ** Bullet formatter *)

(** The marker: U+2022 and a space. *)
Definition bullet_marker : pystr := [8226%N; 32%N].

(** The comprehension
    [["• " + s.strip() for s in sentences if len(s.strip()) > 5]]. *)
Fixpoint bullets_of (sentences : list pystr) : list pystr :=
  match sentences with
  | [] => []
  | s :: rest =>
      if 5 <? len (strip s)
      then (bullet_marker ++ strip s) :: bullets_of rest
      else bullets_of rest
  end.

Definition to_bullets (summary : pystr) : list pystr :=
  let sentences := split (py ". ") summary in
  bullets_of sentences.

(** The formatter as the specification words it: split on the delimiter,
    trim every fragment, discard the fragments whose trimmed length is at
    most 5, and put the marker in front of the others. *)
Definition to_bullets_spec (summary : pystr) : list pystr :=
  let fragments := split (py ". ") summary in
  let trimmed := map strip fragments in
  let kept := List.filter (fun t => negb (len t <=? 5)) trimmed in
  map (fun t => bullet_marker ++ t) kept.

(** ** Length table *)

(** [d[k]] on a dict. *)
Definition getitem {V} (d : gmap pystr V) (k : pystr) : result V :=
  match d !! k with
  | Some v => Ok v
  | None => Raise (KeyError k)
  end.

Definition length_map : gmap pystr (Z * Z) :=
  <[py "Short" := (60, 20)]>
    (<[py "Medium" := (120, 40)]>
       (<[py "Detailed" := (200, 70)]> ∅)).

(** [length_map[summary_type]], the pair bound to [MAX_LEN, MIN_LEN]. *)
Definition resolve_policy (summary_type : pystr) : result (Z * Z) :=
  getitem length_map summary_type.

(** ** The summarization pipeline and the user interface *)

(** One argument list passed to the pipeline. *)
Record call : Type := Call {
  call_text : pystr;
  call_max_length : Z;
  call_min_length : Z;
  call_do_sample : bool
}.

(** What the program shows, in order. An error shown by [st.error] in an
    [except] branch carries the exception whose text it prints. *)
Inductive ui_event : Type :=
| StWarning (msg : pystr)
| StSpinner (msg : pystr)
| StSubheader (msg : pystr)
| StWrite (body : pystr)
| StDownloadButton (label data file_name mime : pystr)
| StError (e : exn).

(** What the pipeline returns: a list of dicts. *)
Abbreviation pipeline_output := (list (gmap pystr pystr)).

(** [xs[0]] *)
Definition first_item {A} (xs : list A) : result A :=
  match xs with
  | [] => Raise (IndexError (py "list index out of range"))
  | x :: _ => Ok x
  end.

Section Program.

(** The state of the loaded model, as far as a call can see or change
    it. *)
Context {W : Type}.

(** The program state: the model, the calls made to it so far, and what
    was shown so far. *)
Record state : Type := State {
  world : W;
  calls : list call;
  shown : list ui_event
}.

(** Computations that read and change the state and may raise. *)
Definition M (A : Type) : Type := state -> result A * state.

Definition ret {A} (a : A) : M A := fun st => (Ok a, st).

Definition bind {A B} (m : M A) (k : A -> M B) : M B :=
  fun st =>
    match m st with
    | (Ok a, st') => k a st'
    | (Raise e, st') => (Raise e, st')
    end.

(** A pure step that may raise. *)
Definition lift {A} (r : result A) : M A := fun st => (r, st).

(** [try: body except Exception as e: handler(e)] *)
Definition try_except {A} (body : M A) (handler : exn -> M A) : M A :=
  fun st =>
    match body st with
    | (Ok a, st') => (Ok a, st')
    | (Raise e, st') => handler e st'
    end.

Definition display (ev : ui_event) : M unit :=
  fun st =>
    (Ok tt, {| world := world st; calls := calls st;
               shown := shown st ++ [ev] |}).

Notation "x <- m ;; k" := (bind m (fun x => k))
  (at level 100, m at next level, right associativity).

(** The module globals the functions read. *)
Variable summarizer : pystr -> Z -> Z -> bool -> W -> result pipeline_output * W.
Variables MAX_LEN MIN_LEN : Z.

(** [summarizer(text, max_length=.., min_length=.., do_sample=..)] *)
Definition call_summarizer (text : pystr) (max_length min_length : Z)
    (do_sample : bool) : M pipeline_output :=
  fun st =>
    let (r, w) := summarizer text max_length min_length do_sample (world st) in
    (r, {| world := w;
           calls := calls st
                    ++ [Call text max_length min_length do_sample];
           shown := shown st |}).

(** The [for chunk in chunks] loop, [summaries] being the list built so
    far. *)
Fixpoint summarize_loop (chunks summaries : list pystr) : M (list pystr) :=
  match chunks with
  | [] => ret summaries
  | chunk :: rest =>
      result <- call_summarizer chunk MAX_LEN MIN_LEN false ;;
      first <- lift (first_item result) ;;
      summary <- lift (getitem first (py "summary_text")) ;;
      summarize_loop rest (summaries ++ [summary])
  end.

Definition summarize_text (text : pystr) : M pystr :=
  chunks <- lift (chunk_text text default_chunk_size) ;;
  summaries <- summarize_loop chunks [] ;;
  ret (join (py " ") summaries).

(** [for bullet in bullets: st.write(bullet)] *)
Fixpoint write_all (bullets : list pystr) : M unit :=
  match bullets with
  | [] => ret tt
  | b :: rest => _ <- display (StWrite b) ;; write_all rest
  end.

(** [text if text else user_input] *)
Definition source_text_of (text user_input : pystr) : pystr :=
  if truthy text then text else user_input.

(** The statements of the [try] of the study-notes button that follow the
    choice of the source text. *)
Definition notes_from (source_text : pystr) : M unit :=
  summary <- summarize_text source_text ;;
  _ <- display (StSubheader (128218%N :: py " AI-Generated Study Notes")) ;;
  let bullets := to_bullets summary in
  _ <- write_all bullets ;;
  display (StDownloadButton (11015%N :: 65039%N :: py " Download Notes")
          summary (py "AI_Study_Notes.txt") (py "text/plain")).

(** The body of the [try] of the study-notes button. *)
Definition notes_body (user_input text : pystr) : M unit :=
  let source_text := source_text_of text user_input in
  notes_from source_text.

(** What pressing the study-notes button runs, [text] being the text
    extracted from the uploaded PDF, or the empty string. *)
Definition generate_study_notes (user_input text : pystr) : M unit :=
  if negb (truthy (strip user_input)) && negb (truthy text)
  then display (StWarning (py "Please enter text or upload a PDF."))
  else
    _ <- display (StSpinner (py "Generating study notes...")) ;;
    try_except (notes_body user_input text) (fun e => display (StError e)).

(** *** Runs of the pipeline over a list of chunks *)

(** The call made for a chunk. *)
Definition call_for (chunk : pystr) : call :=
  Call chunk MAX_LEN MIN_LEN false.

(** The state after the calls for [chunks] were added to the record,
    the model being left in state [w]. *)
Definition after_calls (st : state) (chunks : list pystr) (w : W) : state :=
  {| world := w;
     calls := calls st ++ map call_for chunks;
     shown := shown st |}.

(** [answers w chunks summaries w']: called on each chunk in turn from the
    model state [w], the pipeline returns every time a list whose first
    dict holds a summary under the key "summary_text"; [summaries] are
    these summaries in call order and [w'] is the model state left. *)
Inductive answers : W -> list pystr -> list pystr -> W -> Prop :=
| answers_nil w : answers w [] [] w
| answers_cons w chunk first more summary w1 chunks summaries w2 :
    summarizer chunk MAX_LEN MIN_LEN false w = (Ok (first :: more), w1) ->
    first !! py "summary_text" = Some summary ->
    answers w1 chunks summaries w2 ->
    answers w (chunk :: chunks) (summary :: summaries) w2.

(** [chunk_fails w chunk e w']: from the model state [w] the call for
    [chunk] fails with [e]: the pipeline raises [e], or what it returns is
    malformed and reading the summary out of it raises [e]. *)
Inductive chunk_fails (w : W) (chunk : pystr) : exn -> W -> Prop :=
| fails_raise e w' :
    summarizer chunk MAX_LEN MIN_LEN false w = (Raise e, w') ->
    chunk_fails w chunk e w'
| fails_empty w' :
    summarizer chunk MAX_LEN MIN_LEN false w = (Ok [], w') ->
    chunk_fails w chunk (IndexError (py "list index out of range")) w'
| fails_no_summary first more w' :
    summarizer chunk MAX_LEN MIN_LEN false w = (Ok (first :: more), w') ->
    first !! py "summary_text" = None ->
    chunk_fails w chunk (KeyError (py "summary_text")) w'.

(** The reading of C2 as it is stated: the error of a failed request tells
    the index of the chunk whose call failed. *)
Definition failure_names_chunk : Prop :=
  exists index_of : exn -> nat,
    forall text pre chunk post summaries st w1 e w2,
      chunk_text text default_chunk_size = Ok (pre ++ chunk :: post) ->
      answers (world st) pre summaries w1 ->
      chunk_fails w1 chunk e w2 ->
      exists e', fst (summarize_text text st) = Raise e'
                 /\ index_of e' = length pre.

End Program.

Arguments state W : clear implicits.
Arguments M W A : clear implicits.

(** ** Stand-ins for the pipeline, for examples *)

(** Summarizes a text by its first character and counts its calls. *)
Definition initial_provider (text : pystr) (max_length min_length : Z)
    (do_sample : bool) (n : nat) : result pipeline_output * nat :=
  (Ok [{[py "summary_text" := take 1 text]}], S n).

(** Fails on every text that starts with the letter b. *)
Definition flaky_provider (text : pystr) (max_length min_length : Z)
    (do_sample : bool) (n : nat) : result pipeline_output * nat :=
  if starts_with (py "b") text
  then (Raise (OtherError (py "RuntimeError") (py "model failed")), S n)
  else initial_provider text max_length min_length do_sample n.

(** A text of 1001 characters: a thousand a, then b. *)
Definition long_text : pystr := repeat 97%N 1000 ++ py "b".

(** ** The rest of the script *)

(** The options of the summary-length select box, one of which is
    [summary_type]. *)
Definition summary_options : list pystr :=
  [py "Short"; py "Medium"; py "Detailed"].

(** An opened PDF as the program reads it: for every page, in page order,
    what [page.extract_text()] returns, [None] or a string. *)
Abbreviation pdf := (list (option pystr)).

(** The [for page in pdf.pages] loop, [text] being the string built so
    far; [None] and the empty string are both false in [if page_text]. *)
Fixpoint extract_loop (pages : pdf) (text : pystr) : pystr :=
  match pages with
  | [] => text
  | page_text :: rest =>
      match page_text with
      | Some t =>
          if truthy t
          then extract_loop rest (text ++ t ++ [10%N])
          else extract_loop rest text
      | None => extract_loop rest text
      end
  end.

Definition extract_text_from_pdf (file : pdf) : pystr :=
  strip (extract_loop file []).

(** The texts of the pages that have one, in page order. *)
Definition page_texts (file : pdf) : list pystr :=
  flat_map (fun page_text =>
              match page_text with
              | Some t => if truthy t then [t] else []
              | None => []
              end) file.

(** A page from which nothing but whitespace, or nothing at all, is read. *)
Definition blank_page (page_text : option pystr) : bool :=
  match page_text with
  | Some t => forallb is_space t
  | None => true
  end.

(** The global [text] when the buttons are reached: the empty string, or
    the text extracted from the uploaded file when there is one. *)
Definition uploaded_text (uploaded_file : option pdf) : pystr :=
  match uploaded_file with
  | Some file => extract_text_from_pdf file
  | None => []
  end.

Section Buttons.

Context {W : Type}.
Variable summarizer : pystr -> Z -> Z -> bool -> W -> result pipeline_output * W.
Variables MAX_LEN MIN_LEN : Z.

(** What pressing the summarize button runs. *)
Definition summarize_button (user_input : pystr) : M W unit :=
  if negb (truthy (strip user_input))
  then display (StWarning (py "Please enter text to summarize."))
  else
    bind (display (StSpinner (py "Summarizing text..."))) (fun _ =>
    try_except
      (bind (summarize_text summarizer MAX_LEN MIN_LEN user_input) (fun summary =>
       bind (display (StSubheader (128221%N :: py " Text Summary"))) (fun _ =>
       display (StWrite summary))))
      (fun e => display (StError e))).

End Buttons.

(** The state after [events] were shown. *)
Definition with_shown {W : Type} (st : state W) (events : list ui_event) :
    state W :=
  {| world := world st; calls := calls st; shown := shown st ++ events |}.

(** A stand-in that keeps no state: it summarizes a text by its first
    character. *)
Definition echo_provider (text : pystr) (max_length min_length : Z)
    (do_sample : bool) (w : unit) : result pipeline_output * unit :=
  (Ok [{[py "summary_text" := take 1 text]}], w).

Example chunk_text_abcde_2 :
  chunk_text (py "abcde") 2 = Ok [py "ab"; py "cd"; py "e"].
Proof. reflexivity. Qed.

Example split_examples :
  split (py ". ") (py "a. b.. c. ") = [py "a"; py "b."; py "c"; []]
  /\ split (py ". ") [] = [[]]
  /\ split (py "aa") (py "aaa") = [[]; py "a"]
  /\ strip (py "  x y  ") = py "x y".
Proof. repeat split. Qed.

Example resolve_policy_short : resolve_policy (py "Short") = Ok (60, 20).
Proof. vm_compute. reflexivity. Qed.

(** * Properties *)

(** ** The ceiling *)

(** [ceil_div a b] is the least integer [q] with [a <= b * q]. *)
Lemma ceil_div_spec (a b q : Z) :
  0 < b -> ceil_div a b = q <-> b * (q - 1) < a <= b * q.
Proof.
  intros Hb. unfold ceil_div.
  pose proof (Z.div_mod (- a) b ltac:(lia)) as Hdm.
  pose proof (Z.mod_pos_bound (- a) b Hb) as Hr.
  split; intros H; [subst q; nia|].
  assert ((- a) / b = - q) as ->; [|lia].
  symmetry. apply (Z.div_unique_pos _ _ _ (b * q - a)); lia.
Qed.

Lemma ceil_div_0 (b : Z) : ceil_div 0 b = 0.
Proof. reflexivity. Qed.

(** ** The chunker *)

Lemma len_nonneg {A} (s : list A) : 0 <= len s.
Proof. unfold len. lia. Qed.

Lemma range_len_from_0 (n step : Z) :
  0 < step -> 0 <= n -> range_len 0 n step = ceil_div n step.
Proof.
  intros Hs Hn. unfold range_len.
  assert ((0 <? step) = true) as -> by lia. cbn [andb].
  destruct (0 <? n) eqn:Hpos.
  - symmetry. apply ceil_div_spec; [done|].
    pose proof (Z.div_mod (n - 1 - 0) step ltac:(lia)) as Hdm.
    pose proof (Z.mod_pos_bound (n - 1 - 0) step Hs) as Hr.
    nia.
  - assert (n = 0) as -> by lia.
    rewrite ceil_div_0.
    destruct ((step <? 0) && (0 <? 0)) eqn:E; [lia|done].
Qed.

(** Inside the comprehension a slice is a [take] of a [drop]. *)
Lemma slice_from_nonneg {A} (s : list A) (i size : Z) :
  0 <= i -> 0 < size ->
  slice s i (i + size) = take (Z.to_nat size) (drop (Z.to_nat i) s).
Proof.
  intros Hi Hs. unfold slice, adjust_index.
  pose proof (len_nonneg s) as Hl. unfold len in *.
  assert ((i <? 0) = false) as -> by lia.
  assert ((i + size <? 0) = false) as -> by lia.
  destruct (Z.of_nat (length s) <? i) eqn:E1.
  - rewrite !(drop_ge s) by lia. by rewrite !take_nil.
  - destruct (Z.of_nat (length s) <? i + size) eqn:E2.
    + rewrite !take_ge; [done| |]; rewrite length_drop; lia.
    + f_equal. lia.
Qed.

(** The first [n] chunks make up the first [n * size] characters. *)
Lemma concat_chunks {A} (s : list A) (size n : nat) :
  concat (map (fun k => take size (drop (k * size) s)) (seq 0 n))
  = take (n * size) s.
Proof.
  induction n as [|n IH]; [done|].
  rewrite seq_S, map_app, concat_app, IH. cbn [map concat Nat.add].
  rewrite app_nil_r, take_take_drop. f_equal. lia.
Qed.

(** What [chunk_text] computes for a positive size. *)
Lemma chunk_text_pos (text : pystr) (size : Z) :
  0 < size ->
  chunk_text text size
  = Ok (map (fun k => take (Z.to_nat size) (drop (k * Z.to_nat size) text))
            (seq 0 (Z.to_nat (ceil_div (len text) size)))).
Proof.
  intros Hs. unfold chunk_text, range.
  assert ((size =? 0) = false) as -> by lia.
  rewrite range_len_from_0 by (done || apply len_nonneg).
  f_equal. rewrite map_map. apply map_ext. intros k.
  rewrite slice_from_nonneg by lia. do 2 f_equal. lia.
Qed.

(** C1. Lossless partition: for every text and every positive size,
    [chunk_text] returns a list of chunks, and concatenating them in order
    gives back the text. *)
Theorem chunk_text_lossless (text : pystr) (size : Z) :
  0 < size ->
  exists chunks, chunk_text text size = Ok chunks /\ concat chunks = text.
Proof.
  intros Hs. eexists. split; [by apply chunk_text_pos|].
  rewrite concat_chunks. apply take_ge.
  pose proof (proj1 (ceil_div_spec (len text) size _ Hs) eq_refl) as Hc.
  pose proof (len_nonneg text). unfold len in *. nia.
Qed.

Lemma chunk_text_lossless_witness :
  0 < 2 /\
  exists chunks, chunk_text (py "abcde") 2 = Ok chunks
                 /\ concat chunks = py "abcde".
Proof. split; [lia|]. apply (chunk_text_lossless (py "abcde") 2). lia. Defined.

(** C3. Chunk count: for a positive size, a text that is not empty is cut
    into ceil(len(text) / size) chunks, and the empty text into none. *)
Theorem chunk_text_count (text : pystr) (size : Z) :
  0 < size ->
  (0 < len text ->
   exists chunks, chunk_text text size = Ok chunks
                  /\ len chunks = ceil_div (len text) size)
  /\ chunk_text [] size = Ok [].
Proof.
  intros Hs. split.
  - intros Hl. eexists. split; [by apply chunk_text_pos|].
    unfold len at 1. rewrite List.length_map, length_seq.
    pose proof (proj1 (ceil_div_spec (len text) size _ Hs) eq_refl). nia.
  - rewrite chunk_text_pos by done. cbn [length len Z.of_nat].
    by rewrite ceil_div_0.
Qed.

Lemma chunk_text_count_witness :
  0 < 2 /\ 0 < len (py "abcde") /\
  (exists chunks, chunk_text (py "abcde") 2 = Ok chunks
                  /\ len chunks = ceil_div (len (py "abcde")) 2)
  /\ chunk_text [] 2 = Ok [].
Proof.
  assert (0 < 2) as H2 by lia.
  assert (0 < len (py "abcde")) as H5 by (vm_compute; reflexivity).
  destruct (chunk_text_count (py "abcde") 2 H2) as [Hcount Hempty].
  exact (conj H2 (conj H5 (conj (Hcount H5) Hempty))).
Defined.

(** C8, as the code has it. A zero size makes [range] raise [ValueError];
    a negative size raises nothing and gives the empty list; a positive size
    never fails. *)
Theorem chunk_text_size_cases (text : pystr) :
  chunk_text text 0
  = Raise (ValueError (py "range() arg 3 must not be zero"))
  /\ (forall size, size < 0 -> chunk_text text size = Ok [])
  /\ (forall size, 0 < size -> exists chunks, chunk_text text size = Ok chunks).
Proof.
  split; [reflexivity|]. split.
  - intros size Hs. unfold chunk_text, range, range_len.
    pose proof (len_nonneg text).
    assert ((size =? 0) = false) as -> by lia.
    assert ((0 <? size) = false) as -> by lia.
    assert ((len text <? 0) = false) as -> by lia.
    by rewrite andb_false_r.
  - intros size Hs. rewrite chunk_text_pos by done. by eexists.
Qed.

Lemma chunk_text_size_cases_witness :
  chunk_text (py "abc") 0
  = Raise (ValueError (py "range() arg 3 must not be zero"))
  /\ chunk_text (py "abc") (-1) = Ok []
  /\ exists chunks, chunk_text (py "abc") 2 = Ok chunks.
Proof.
  destruct (chunk_text_size_cases (py "abc")) as (H0 & Hneg & Hpos).
  exact (conj H0 (conj (Hneg (-1) ltac:(lia)) (Hpos 2 ltac:(lia)))).
Defined.

(** C8 as stated fails: a negative size is not reported as an error. *)
Lemma chunk_text_negative_size_no_error :
  (-1) <= 0 /\ chunk_text (py "abc") (-1) = Ok []
  /\ ~ (forall (text : pystr) (size : Z),
          size <= 0 -> exists e, chunk_text text size = Raise e).
Proof.
  split; [lia|]. split; [reflexivity|].
  intros H. destruct (H (py "abc") (-1) ltac:(lia)) as [e He].
  discriminate He.
Qed.

(** ** The length table *)

(** C5. Policy table closure: the three tiers resolve to their pairs, and
    any other key makes the lookup raise [KeyError]. *)
Theorem resolve_policy_table :
  resolve_policy (py "Short") = Ok (60, 20)
  /\ resolve_policy (py "Medium") = Ok (120, 40)
  /\ resolve_policy (py "Detailed") = Ok (200, 70)
  /\ (forall tier : pystr,
        tier <> py "Short" -> tier <> py "Medium" -> tier <> py "Detailed" ->
        resolve_policy tier = Raise (KeyError tier)).
Proof.
  unfold resolve_policy, getitem, length_map.
  split; [by rewrite lookup_insert_eq|].
  split; [by rewrite lookup_insert_ne, lookup_insert_eq by discriminate|].
  split; [by rewrite !lookup_insert_ne, lookup_insert_eq by discriminate|].
  intros tier H1 H2 H3.
  by rewrite !lookup_insert_ne, lookup_empty by done.
Qed.

Lemma resolve_policy_table_witness :
  py "Tiny" <> py "Short" /\ py "Tiny" <> py "Medium"
  /\ py "Tiny" <> py "Detailed"
  /\ resolve_policy (py "Tiny") = Raise (KeyError (py "Tiny")).
Proof.
  assert (py "Tiny" <> py "Short") as H1 by discriminate.
  assert (py "Tiny" <> py "Medium") as H2 by discriminate.
  assert (py "Tiny" <> py "Detailed") as H3 by discriminate.
  exact (conj H1 (conj H2 (conj H3
    (proj2 (proj2 (proj2 resolve_policy_table)) (py "Tiny") H1 H2 H3)))).
Defined.

(** ** Searching and splitting *)

Lemma starts_with_spec (p s : pystr) :
  starts_with p s = true <-> exists t, s = p ++ t.
Proof.
  revert s. induction p as [|a p IH]; intros s; cbn.
  - split; [by exists s|done].
  - destruct s as [|b s]; [split; [done|by intros [t Ht]]|].
    rewrite andb_true_iff, N.eqb_eq, IH. split.
    + intros [-> [t ->]]. by exists t.
    + intros [t Ht]. injection Ht as -> ->. eauto.
Qed.

(** [contains sub s] holds exactly when [sub] occurs in [s]. *)
Lemma contains_spec (sub s : pystr) :
  contains sub s = true <-> exists l1 l2, s = l1 ++ sub ++ l2.
Proof.
  induction s as [|c s IH]; cbn [contains]; rewrite orb_true_iff.
  - rewrite starts_with_spec. split.
    + intros [[t Ht]|]; [|done]. by exists [], t.
    + intros (l1 & l2 & H). left. exists l2.
      destruct l1; [done|discriminate H].
  - rewrite starts_with_spec, IH. split.
    + intros [[t Ht]|(l1 & l2 & ->)]; [by exists [], t|by exists (c :: l1), l2].
    + intros (l1 & l2 & H). destruct l1 as [|c' l1].
      * left. by exists l2.
      * right. injection H as -> ->. eauto.
Qed.

Lemma split_from_not_nil (sep : pystr) (skip : nat) (cur s : pystr) :
  split_from sep skip cur s <> [].
Proof.
  revert skip cur. induction s as [|c s IH]; intros skip cur; cbn; [done|].
  destruct skip; [|done]. by destruct (starts_with sep (c :: s)).
Qed.

Lemma join_cons (sep x : pystr) (xs : list pystr) :
  xs <> [] -> join sep (x :: xs) = x ++ sep ++ join sep xs.
Proof. by destruct xs. Qed.

Lemma join_split_from (sep : pystr) (skip : nat) (cur s : pystr) :
  sep <> [] -> join sep (split_from sep skip cur s) = rev cur ++ drop skip s.
Proof.
  intros Hsep. revert skip cur. induction s as [|c s IH]; intros skip cur.
  - cbn. by rewrite drop_nil, app_nil_r.
  - cbn [split_from]. destruct skip as [|k]; [|by rewrite IH].
    destruct (starts_with sep (c :: s)) eqn:E.
    + rewrite join_cons by apply split_from_not_nil. rewrite IH.
      apply starts_with_spec in E as [t Ht].
      destruct sep as [|a sep]; cbn in *.
      * done.
      * injection Ht as -> ->.
        by rewrite Nat.sub_0_r, drop_app_length.
    + rewrite IH. cbn. by rewrite <- app_assoc.
Qed.

(** Joining the fragments of a split with the separator gives the string
    back. *)
Lemma join_split (sep s : pystr) : join sep (split sep s) = s.
Proof.
  unfold split. destruct sep; [done|]. by rewrite join_split_from.
Qed.

(** A string in which the separator does not occur is its own single
    fragment. *)
Lemma split_from_no_sep (sep cur s : pystr) :
  contains sep s = false -> split_from sep 0 cur s = [rev cur ++ s].
Proof.
  revert cur. induction s as [|c s IH]; intros cur H.
  - cbn. by rewrite app_nil_r.
  - cbn [contains] in H. apply orb_false_iff in H as [H1 H2].
    cbn [split_from]. rewrite H1, IH by done.
    cbn. by rewrite <- app_assoc.
Qed.

Lemma split_no_sep (sep s : pystr) :
  contains sep s = false -> split sep s = [s].
Proof.
  intros H. unfold split. destruct sep; [done|]. by rewrite split_from_no_sep.
Qed.

(** ** The bullet formatter *)

Lemma bullets_of_filter_map (sentences : list pystr) :
  bullets_of sentences
  = map (fun t => bullet_marker ++ t)
        (List.filter (fun t => negb (len t <=? 5)) (map strip sentences)).
Proof.
  induction sentences as [|s rest IH]; [done|]. cbn.
  destruct (5 <? len (strip s)) eqn:E1, (len (strip s) <=? 5) eqn:E2;
    try lia; cbn; by rewrite IH.
Qed.

(** C4. The formatter computes what the specification describes: split on
    the delimiter, trim, drop the fragments of trimmed length at most 5, put
    the marker in front of the rest, in order; and it yields the two bullets
    of the documented example. *)
Theorem to_bullets_algorithm :
  (forall summary : pystr, to_bullets summary = to_bullets_spec summary)
  /\ to_bullets (py "AI is great. Go. Study hard and review daily.")
     = [bullet_marker ++ py "AI is great";
        bullet_marker ++ py "Study hard and review daily."].
Proof.
  split; [|reflexivity].
  intros summary. apply bullets_of_filter_map.
Qed.

(** C9. Edge cases: the empty summary gives no bullet, and a summary without
    the delimiter gives one bullet, the whole trimmed string behind the
    marker, when the trimmed string is longer than 5 characters, and no
    bullet otherwise. *)
Theorem to_bullets_edge_cases :
  to_bullets [] = []
  /\ (forall summary : pystr,
        contains (py ". ") summary = false ->
        to_bullets summary
        = if 5 <? len (strip summary)
          then [bullet_marker ++ strip summary]
          else []).
Proof.
  split; [reflexivity|].
  intros summary H. unfold to_bullets. rewrite split_no_sep by done.
  cbn [bullets_of]. by destruct (5 <? len (strip summary)).
Qed.

Lemma to_bullets_edge_cases_witness :
  contains (py ". ") (py "  Revise daily  ") = false
  /\ to_bullets (py "  Revise daily  ") = [bullet_marker ++ py "Revise daily"]
  /\ contains (py ". ") (py " Go.") = false
  /\ to_bullets (py " Go.") = [].
Proof.
  assert (contains (py ". ") (py "  Revise daily  ") = false) as H1
    by reflexivity.
  assert (contains (py ". ") (py " Go.") = false) as H2 by reflexivity.
  pose proof (proj2 to_bullets_edge_cases _ H1) as B1.
  pose proof (proj2 to_bullets_edge_cases _ H2) as B2.
  exact (conj H1 (conj B1 (conj H2 B2))).
Defined.

(** ** The summary assembler *)

Section Assembler.

Context {W : Type}.
Variable summarizer : pystr -> Z -> Z -> bool -> W -> result pipeline_output * W.
Variables MAX_LEN MIN_LEN : Z.

Local Abbreviation answers := (answers summarizer MAX_LEN MIN_LEN).
Local Abbreviation chunk_fails := (chunk_fails summarizer MAX_LEN MIN_LEN).
Local Abbreviation run_loop := (summarize_loop summarizer MAX_LEN MIN_LEN).
Local Abbreviation run_text := (summarize_text summarizer MAX_LEN MIN_LEN).
Local Abbreviation after_calls := (@after_calls W MAX_LEN MIN_LEN).

Lemma after_calls_nil (st : state W) : after_calls st [] (world st) = st.
Proof. destruct st. unfold after_calls. cbn. by rewrite app_nil_r. Qed.

(** One turn of the loop whose call answers. *)
Lemma summarize_loop_step chunk rest acc st first more summary w1 :
  summarizer chunk MAX_LEN MIN_LEN false (world st) = (Ok (first :: more), w1) ->
  first !! py "summary_text" = Some summary ->
  run_loop (chunk :: rest) acc st
  = run_loop rest (acc ++ [summary]) (after_calls st [chunk] w1).
Proof.
  intros Hcall Hkey.
  cbn [summarize_loop]. unfold bind at 1, call_summarizer.
  rewrite Hcall. unfold bind at 1, lift, first_item.
  unfold bind at 1, getitem. by rewrite Hkey.
Qed.

(** One turn of the loop whose call fails. *)
Lemma summarize_loop_fail chunk rest acc st e w1 :
  chunk_fails (world st) chunk e w1 ->
  run_loop (chunk :: rest) acc st
  = (Raise e, after_calls st [chunk] w1).
Proof.
  intros Hfail.
  cbn [summarize_loop]. unfold bind at 1, call_summarizer.
  destruct Hfail as [e w' Hcall|w' Hcall|first more w' Hcall Hkey];
    rewrite Hcall; [done|done|].
  unfold bind at 1, lift, first_item.
  unfold bind at 1, getitem. by rewrite Hkey.
Qed.

Lemma after_calls_app st pre post w1 w2 :
  after_calls (after_calls st pre w1) post w2 = after_calls st (pre ++ post) w2.
Proof. unfold after_calls. cbn. by rewrite map_app, app_assoc. Qed.

(** The loop over chunks that are all answered. *)
Lemma summarize_loop_answers chunks summaries w' :
  forall st acc,
    answers (world st) chunks summaries w' ->
    run_loop chunks acc st
    = (Ok (acc ++ summaries), after_calls st chunks w').
Proof.
  intros st acc H. remember (world st) as w eqn:Hw.
  revert st acc Hw.
  induction H as [w|w chunk first more summary w1 chunks summaries w2
                    Hcall Hkey Hrest IH]; intros st acc ->.
  - cbn. by rewrite app_nil_r, after_calls_nil.
  - rewrite (summarize_loop_step _ _ _ _ _ _ _ _ Hcall Hkey).
    rewrite IH by reflexivity. rewrite after_calls_app. by rewrite <- app_assoc.
Qed.

(** The loop stops at the first chunk whose call fails. *)
Lemma summarize_loop_stops pre chunk post summaries st acc w1 e w2 :
  answers (world st) pre summaries w1 ->
  chunk_fails w1 chunk e w2 ->
  run_loop (pre ++ chunk :: post) acc st
  = (Raise e, after_calls st (pre ++ [chunk]) w2).
Proof.
  intros H. remember (world st) as w eqn:Hw.
  revert st acc Hw.
  induction H as [w|w c first more summary w1' chunks summaries w2'
                    Hcall Hkey Hrest IH]; intros st acc -> Hfail.
  - cbn [app]. by apply summarize_loop_fail.
  - cbn [app].
    rewrite (summarize_loop_step _ _ _ _ _ _ _ _ Hcall Hkey).
    rewrite IH by (reflexivity || assumption). by rewrite after_calls_app.
Qed.

(** With a pipeline that keeps no state and answers every text [t] with a
    summary [f t], the summaries are the images of the chunks, position by
    position. *)
Lemma answers_stateless (f : pystr -> pystr) (w : W) (chunks : list pystr) :
  (forall t, exists first more,
      summarizer t MAX_LEN MIN_LEN false w = (Ok (first :: more), w)
      /\ first !! py "summary_text" = Some (f t)) ->
  answers w chunks (map f chunks) w.
Proof.
  intros Hf. induction chunks as [|chunk chunks IH]; [apply answers_nil|].
  destruct (Hf chunk) as (first & more & Hcall & Hkey).
  cbn [map]. by eapply answers_cons.
Qed.

Lemma summarize_text_unfold text chunks st :
  chunk_text text default_chunk_size = Ok chunks ->
  run_text text st
  = match run_loop chunks [] st with
    | (Ok summaries, st') => (Ok (join (py " ") summaries), st')
    | (Raise e, st') => (Raise e, st')
    end.
Proof.
  intros H. unfold summarize_text, bind, lift. by rewrite H.
Qed.

End Assembler.

(** C6. Empty input: whatever the length pair and the pipeline, summarizing
    the empty string returns the empty string and leaves the state as it
    was: no call is made and the model is not touched. *)
Theorem summarize_text_empty {W : Type}
    (summarizer : pystr -> Z -> Z -> bool -> W -> result pipeline_output * W)
    (MAX_LEN MIN_LEN : Z) (st : state W) :
  summarize_text summarizer MAX_LEN MIN_LEN [] st = (Ok [], st)
  /\ calls (snd (summarize_text summarizer MAX_LEN MIN_LEN [] st)) = calls st.
Proof.
  assert (chunk_text [] default_chunk_size = Ok []) as Hchunks
    by (by rewrite chunk_text_pos).
  rewrite (summarize_text_unfold _ _ _ _ _ _ Hchunks).
  cbn [summarize_loop ret]. by split.
Qed.

(** C7. Assembly order: when the call for every chunk of
    [chunk_text(text, 1000)] answers, [summarize_text] returns the summaries
    joined with one space, the i-th summary being the answer to the call for
    the i-th chunk, and the calls made are those for the chunks, in chunk
    order, each with the maximal and minimal lengths of the policy. *)
Theorem summarize_text_assembles {W : Type}
    (summarizer : pystr -> Z -> Z -> bool -> W -> result pipeline_output * W)
    (MAX_LEN MIN_LEN : Z) (text : pystr) (chunks summaries : list pystr)
    (st : state W) (w' : W) :
  chunk_text text default_chunk_size = Ok chunks ->
  answers summarizer MAX_LEN MIN_LEN (world st) chunks summaries w' ->
  summarize_text summarizer MAX_LEN MIN_LEN text st
  = (Ok (join (py " ") summaries), after_calls MAX_LEN MIN_LEN st chunks w').
Proof.
  intros Hchunks Hanswers.
  rewrite (summarize_text_unfold _ _ _ _ _ _ Hchunks).
  by rewrite (summarize_loop_answers _ _ _ _ _ _ _ [] Hanswers).
Qed.

Lemma summarize_text_assembles_witness :
  chunk_text long_text default_chunk_size = Ok [repeat 97%N 1000; py "b"]
  /\ answers initial_provider 60 20 0%nat
       [repeat 97%N 1000; py "b"] [py "a"; py "b"] 2%nat
  /\ summarize_text initial_provider 60 20 long_text (State 0%nat [] [])
     = (Ok (py "a b"),
        State 2%nat [Call (repeat 97%N 1000) 60 20 false;
                     Call (py "b") 60 20 false] []).
Proof.
  assert (chunk_text long_text default_chunk_size
          = Ok [repeat 97%N 1000; py "b"]) as Hchunks
    by (vm_compute; reflexivity).
  assert (answers initial_provider 60 20 0%nat
            [repeat 97%N 1000; py "b"] [py "a"; py "b"] 2%nat) as Hanswers.
  { eapply answers_cons; [reflexivity|apply lookup_singleton_eq|].
    eapply answers_cons; [reflexivity|apply lookup_singleton_eq|].
    apply answers_nil. }
  exact (conj Hchunks (conj Hanswers
    (summarize_text_assembles initial_provider 60 20 long_text _ _
       (State 0%nat [] []) 2%nat Hchunks Hanswers))).
Defined.

(** C2, as the code has it. When the call for some chunk fails, after the
    calls for the chunks before it answered, [summarize_text] fails as a
    whole with the very exception of that call, which carries no chunk
    index; nothing of the earlier summaries is returned, and no call is made
    for the chunks after the failing one. *)
Theorem summarize_text_failure {W : Type}
    (summarizer : pystr -> Z -> Z -> bool -> W -> result pipeline_output * W)
    (MAX_LEN MIN_LEN : Z) (text : pystr) (pre : list pystr) (chunk : pystr)
    (post summaries : list pystr) (st : state W) (w1 : W) (e : exn) (w2 : W) :
  chunk_text text default_chunk_size = Ok (pre ++ chunk :: post) ->
  answers summarizer MAX_LEN MIN_LEN (world st) pre summaries w1 ->
  chunk_fails summarizer MAX_LEN MIN_LEN w1 chunk e w2 ->
  summarize_text summarizer MAX_LEN MIN_LEN text st
  = (Raise e, after_calls MAX_LEN MIN_LEN st (pre ++ [chunk]) w2).
Proof.
  intros Hchunks Hanswers Hfail.
  rewrite (summarize_text_unfold _ _ _ _ _ _ Hchunks).
  by rewrite (summarize_loop_stops _ _ _ pre chunk post summaries st [] w1 e w2
                Hanswers Hfail).
Qed.

Lemma summarize_text_failure_witness :
  chunk_text long_text default_chunk_size
  = Ok ([repeat 97%N 1000] ++ py "b" :: [])
  /\ answers flaky_provider 60 20 0%nat [repeat 97%N 1000] [py "a"] 1%nat
  /\ chunk_fails flaky_provider 60 20 1%nat (py "b")
       (OtherError (py "RuntimeError") (py "model failed")) 2%nat
  /\ summarize_text flaky_provider 60 20 long_text (State 0%nat [] [])
     = (Raise (OtherError (py "RuntimeError") (py "model failed")),
        State 2%nat [Call (repeat 97%N 1000) 60 20 false;
                     Call (py "b") 60 20 false] []).
Proof.
  assert (chunk_text long_text default_chunk_size
          = Ok ([repeat 97%N 1000] ++ py "b" :: [])) as Hchunks
    by (vm_compute; reflexivity).
  assert (answers flaky_provider 60 20 0%nat
            [repeat 97%N 1000] [py "a"] 1%nat) as Hanswers.
  { eapply answers_cons; [reflexivity|apply lookup_singleton_eq|].
    apply answers_nil. }
  assert (chunk_fails flaky_provider 60 20 1%nat (py "b")
            (OtherError (py "RuntimeError") (py "model failed")) 2%nat)
    as Hfail by (apply fails_raise; reflexivity).
  exact (conj Hchunks (conj Hanswers (conj Hfail
    (summarize_text_failure flaky_provider 60 20 long_text _ _ _ _
       (State 0%nat [] []) _ _ _ Hchunks Hanswers Hfail)))).
Defined.

(** C2 as stated fails: the error of a failed request does not tell which
    chunk failed. The same exception comes out whether the failing chunk is
    the first of a one-chunk text or the second of a two-chunk text. *)
Lemma failed_request_error_has_no_index :
  fst (summarize_text flaky_provider 60 20 (py "b") (State 0%nat [] []))
  = fst (summarize_text flaky_provider 60 20 long_text (State 0%nat [] []))
  /\ ~ failure_names_chunk flaky_provider 60 20.
Proof.
  split; [vm_compute; reflexivity|].
  intros [index_of H].
  assert (chunk_fails flaky_provider 60 20 0%nat (py "b")
            (OtherError (py "RuntimeError") (py "model failed")) 1%nat)
    as Hfail0 by (apply fails_raise; reflexivity).
  assert (chunk_fails flaky_provider 60 20 1%nat (py "b")
            (OtherError (py "RuntimeError") (py "model failed")) 2%nat)
    as Hfail1 by (apply fails_raise; reflexivity).
  assert (answers flaky_provider 60 20 0%nat
            [repeat 97%N 1000] [py "a"] 1%nat) as Hanswers.
  { eapply answers_cons; [reflexivity|apply lookup_singleton_eq|].
    apply answers_nil. }
  destruct (H (py "b") [] (py "b") [] [] (State 0%nat [] []) _ _ _
              eq_refl (answers_nil _ _ _ _) Hfail0) as (e0 & Hrun0 & Hidx0).
  destruct (H long_text [repeat 97%N 1000] (py "b") [] [py "a"]
              (State 0%nat [] []) _ _ _
              ltac:(vm_compute; reflexivity) Hanswers Hfail1)
    as (e1 & Hrun1 & Hidx1).
  vm_compute in Hrun0, Hrun1.
  injection Hrun0 as <-. injection Hrun1 as <-.
  cbn in Hidx0, Hidx1. congruence.
Qed.

(** A text of five chunks whose third chunk makes the pipeline fail: the
    request fails with the exception of the pipeline after three calls. *)
Example summarize_text_fails_on_third_of_five :
  let text := repeat 97%N 2000 ++ py "b" ++ repeat 97%N 2500 in
  let run := summarize_text flaky_provider 60 20 text (State 0%nat [] []) in
  (exists chunks, chunk_text text default_chunk_size = Ok chunks
                  /\ length chunks = 5%nat)
  /\ fst run = Raise (OtherError (py "RuntimeError") (py "model failed"))
  /\ length (calls (snd run)) = 3%nat.
Proof.
  split; [eexists; split; vm_compute; reflexivity|].
  split; vm_compute; reflexivity.
Qed.

(** ** The study-notes button *)

(** C10. Source precedence: when the text extracted from the PDF is not
    empty, it is the source text and the typed input plays no part in what
    the button does; the typed input is the source text when the extracted
    text is empty. *)
Theorem pdf_text_precedence {W : Type}
    (summarizer : pystr -> Z -> Z -> bool -> W -> result pipeline_output * W)
    (MAX_LEN MIN_LEN : Z) :
  (forall user_input text : pystr,
     text <> [] ->
     source_text_of text user_input = text
     /\ notes_body summarizer MAX_LEN MIN_LEN user_input text
        = notes_from summarizer MAX_LEN MIN_LEN text
     /\ forall typed st,
          generate_study_notes summarizer MAX_LEN MIN_LEN typed text st
          = generate_study_notes summarizer MAX_LEN MIN_LEN user_input text st)
  /\ (forall user_input : pystr,
        source_text_of [] user_input = user_input
        /\ notes_body summarizer MAX_LEN MIN_LEN user_input []
           = notes_from summarizer MAX_LEN MIN_LEN user_input).
Proof.
  split; [|done].
  intros user_input text Hne.
  assert (truthy text = true) as Ht by (by destruct text).
  assert (forall typed, source_text_of text typed = text) as Hsrc
    by (intros typed; unfold source_text_of; by rewrite Ht).
  split; [apply Hsrc|]. split.
  - unfold notes_body. by rewrite Hsrc.
  - intros typed st. unfold generate_study_notes, notes_body.
    by rewrite Ht, !andb_false_r, !Hsrc.
Qed.

Lemma pdf_text_precedence_witness :
  py "from the pdf" <> []
  /\ source_text_of (py "from the pdf") (py "typed by the user")
     = py "from the pdf"
  /\ generate_study_notes initial_provider 60 20 [] (py "from the pdf")
       (State 0%nat [] [])
     = generate_study_notes initial_provider 60 20 (py "typed by the user")
         (py "from the pdf") (State 0%nat [] []).
Proof.
  assert (py "from the pdf" <> []) as Hne by discriminate.
  destruct (proj1 (pdf_text_precedence initial_provider 60 20)
              (py "typed by the user") (py "from the pdf") Hne)
    as (Hsrc & _ & Hsame).
  exact (conj Hne (conj Hsrc (Hsame [] (State 0%nat [] [])))).
Defined.

(** * Further properties of the program *)

(** ** The chunker: sizes and composition *)

Lemma ceil_div_add_mul (k b size : Z) :
  0 < size -> ceil_div (k * size + b) size = k + ceil_div b size.
Proof.
  intros Hs. apply ceil_div_spec; [done|].
  pose proof (proj1 (ceil_div_spec b size _ Hs) eq_refl). nia.
Qed.

Lemma ceil_div_nonneg (a size : Z) : 0 < size -> 0 <= a -> 0 <= ceil_div a size.
Proof.
  intros Hs Ha.
  pose proof (proj1 (ceil_div_spec a size _ Hs) eq_refl). nia.
Qed.

(** The chunk at position [k], among [n] chunks of [sz] characters cut
    from [s]. *)
Lemma lookup_chunk {A} (s : list A) (sz n k : nat) :
  (k < n)%nat ->
  map (fun j => take sz (drop (j * sz) s)) (seq 0 n) !! k
  = Some (take sz (drop (k * sz) s)).
Proof.
  intros Hk. rewrite list_lookup_fmap, lookup_seq_lt by done. done.
Qed.

(** X1. Chunk sizes: for a positive size every chunk holds at least one
    and at most [size] characters, and every chunk but the last holds
    exactly [size]. *)
Theorem chunk_lengths (text : pystr) (size : Z) (chunks : list pystr) :
  0 < size ->
  chunk_text text size = Ok chunks ->
  Forall (fun c => 0 < len c <= size) chunks
  /\ (forall (i : nat) (c : pystr),
        (S i < length chunks)%nat -> chunks !! i = Some c -> len c = size).
Proof.
  intros Hs Hc. rewrite chunk_text_pos in Hc by done.
  injection Hc as <-.
  pose proof (proj1 (ceil_div_spec (len text) size _ Hs) eq_refl) as Hn.
  pose proof (ceil_div_nonneg (len text) size Hs (len_nonneg text)) as Hn0.
  set (n := Z.to_nat (ceil_div (len text) size)) in *.
  set (sz := Z.to_nat size) in *.
  assert (Hchunk : forall k, (k < n)%nat ->
            0 < len (take sz (drop (k * sz) text)) <= size
            /\ ((S k < n)%nat -> len (take sz (drop (k * sz) text)) = size)).
  { intros k Hk. unfold len in *. rewrite length_take, length_drop.
    subst n sz. split; [nia|intros Hk'; nia]. }
  split.
  - apply Forall_lookup. intros k c Hkc.
    assert (k < n)%nat as Hk.
    { apply lookup_lt_Some in Hkc.
      by rewrite List.length_map, length_seq in Hkc. }
    rewrite lookup_chunk in Hkc by done. injection Hkc as <-.
    by apply Hchunk.
  - intros k c Hlen Hkc.
    rewrite List.length_map, length_seq in Hlen.
    rewrite lookup_chunk in Hkc by lia. injection Hkc as <-.
    apply Hchunk; lia.
Qed.

Lemma chunk_lengths_witness :
  0 < 2 /\ chunk_text (py "abcde") 2 = Ok [py "ab"; py "cd"; py "e"]
  /\ Forall (fun c => 0 < len c <= 2) [py "ab"; py "cd"; py "e"]
  /\ (forall (i : nat) (c : pystr),
        (S i < 3)%nat -> [py "ab"; py "cd"; py "e"] !! i = Some c ->
        len c = 2).
Proof.
  assert (0 < 2) as H2 by lia.
  assert (chunk_text (py "abcde") 2 = Ok [py "ab"; py "cd"; py "e"]) as Hc
    by reflexivity.
  exact (conj H2 (conj Hc (chunk_lengths (py "abcde") 2 _ H2 Hc))).
Defined.

(** X2. A text that is not empty and no longer than the chunk size is
    its own single chunk. *)
Theorem chunk_text_short (text : pystr) (size : Z) :
  0 < len text <= size -> chunk_text text size = Ok [text].
Proof.
  intros [Hpos Hle]. rewrite chunk_text_pos by lia.
  assert (ceil_div (len text) size = 1) as ->
    by (apply ceil_div_spec; lia).
  change (Z.to_nat 1) with 1%nat. cbn [seq map Nat.mul drop].
  do 2 f_equal. apply take_ge.
  unfold len in *. lia.
Qed.

Lemma chunk_text_short_witness :
  0 < len (py "notes") <= 1000
  /\ chunk_text (py "notes") 1000 = Ok [py "notes"].
Proof.
  assert (0 < len (py "notes") <= 1000) as H
    by (vm_compute; split; [reflexivity|discriminate]).
  exact (conj H (chunk_text_short (py "notes") 1000 H)).
Defined.

(** The chunks of [a ++ b], when the length of [a] is a multiple of the
    size, in the form [chunk_text_pos] gives them. *)
Lemma chunk_list_app (a b : pystr) (size k : Z) :
  0 < size -> len a = k * size ->
  map (fun j => take (Z.to_nat size) (drop (j * Z.to_nat size) (a ++ b)))
      (seq 0 (Z.to_nat (ceil_div (len (a ++ b)) size)))
  = map (fun j => take (Z.to_nat size) (drop (j * Z.to_nat size) a))
        (seq 0 (Z.to_nat (ceil_div (len a) size)))
    ++ map (fun j => take (Z.to_nat size) (drop (j * Z.to_nat size) b))
           (seq 0 (Z.to_nat (ceil_div (len b) size))).
Proof.
  intros Hs Ha.
  assert (0 <= k) as Hk by (pose proof (len_nonneg a); nia).
  assert (len (a ++ b) = k * size + len b) as ->
    by (unfold len in *; rewrite length_app; lia).
  rewrite ceil_div_add_mul by done.
  assert (ceil_div (len a) size = k) as ->
    by (apply ceil_div_spec; [done|nia]).
  pose proof (ceil_div_nonneg (len b) size Hs (len_nonneg b)) as Hnb.
  rewrite Z2Nat.inj_add by done.
  set (sz := Z.to_nat size). set (m := Z.to_nat (ceil_div (len b) size)).
  assert (length a = (Z.to_nat k * sz)%nat) as Hla
    by (unfold len in Ha; subst sz; nia).
  rewrite seq_app, map_app. f_equal.
  - apply map_ext_in. intros j Hj. apply in_seq in Hj.
    rewrite drop_app_le by nia.
    apply take_app_le. rewrite length_drop. nia.
  - cbn [Nat.add].
    replace (seq (Z.to_nat k) m) with (map (Nat.add (Z.to_nat k)) (seq 0 m))
      by (rewrite <- (Nat.add_0_r (Z.to_nat k)) at 2; apply fmap_add_seq).
    rewrite map_map. apply map_ext. intros j. f_equal.
    rewrite drop_app_ge by nia. f_equal. nia.
Qed.

(** X3. Chunking composes at chunk boundaries: when the length of [a] is
    a multiple of the size, the chunks of [a ++ b] are the chunks of [a]
    followed by the chunks of [b]. *)
Theorem chunk_text_app (a b : pystr) (size k : Z) :
  0 < size -> len a = k * size ->
  exists ca cb,
    chunk_text a size = Ok ca /\ chunk_text b size = Ok cb
    /\ chunk_text (a ++ b) size = Ok (ca ++ cb).
Proof.
  intros Hs Ha. do 2 eexists.
  split; [by apply chunk_text_pos|]. split; [by apply chunk_text_pos|].
  rewrite chunk_text_pos by done. f_equal. by eapply chunk_list_app.
Qed.

Lemma chunk_text_app_witness :
  0 < 2 /\ len (py "abcd") = 2 * 2
  /\ exists ca cb,
       chunk_text (py "abcd") 2 = Ok ca /\ chunk_text (py "efg") 2 = Ok cb
       /\ chunk_text (py "abcd" ++ py "efg") 2 = Ok (ca ++ cb).
Proof.
  assert (0 < 2) as H2 by lia.
  assert (len (py "abcd") = 2 * 2) as H4 by reflexivity.
  exact (conj H2 (conj H4 (chunk_text_app (py "abcd") (py "efg") 2 2 H2 H4))).
Defined.

(** ** Trimming *)

Lemma forallb_space_app (p q : pystr) :
  forallb is_space (p ++ q) = true
  <-> forallb is_space p = true /\ forallb is_space q = true.
Proof. by rewrite forallb_app, andb_true_iff. Qed.

Lemma forallb_space_rev (q : pystr) :
  forallb is_space (rev q) = forallb is_space q.
Proof.
  induction q as [|c q IH]; [done|]. cbn.
  rewrite forallb_app, IH. cbn. rewrite andb_true_r. apply andb_comm.
Qed.

Lemma lstrip_app_space (p t : pystr) :
  forallb is_space p = true -> lstrip (p ++ t) = lstrip t.
Proof.
  induction p as [|c p IH]; [done|]. cbn.
  intros [-> Hp]%andb_true_iff. by apply IH.
Qed.

Lemma lstrip_split (s : pystr) :
  exists p, s = p ++ lstrip s /\ forallb is_space p = true.
Proof.
  induction s as [|c s (p & Hs & Hp)]; [by exists []|]. cbn.
  destruct (is_space c) eqn:E; [|by exists []].
  exists (c :: p). cbn. rewrite E, Hp. split; [by f_equal|done].
Qed.

Lemma lstrip_head (s : pystr) (c : char) (t : pystr) :
  lstrip s = c :: t -> is_space c = false.
Proof.
  induction s as [|a s IH]; [done|]. cbn.
  destruct (is_space a) eqn:E; [done|]. by intros [= <- _].
Qed.

Lemma lstrip_nonspace (c : char) (t : pystr) :
  is_space c = false -> lstrip (c :: t) = c :: t.
Proof. intros H. cbn. by rewrite H. Qed.

Lemma rstrip_app_space (t q : pystr) :
  forallb is_space q = true -> rstrip (t ++ q) = rstrip t.
Proof.
  intros Hq. unfold rstrip. rewrite rev_app_distr.
  by rewrite lstrip_app_space by (by rewrite forallb_space_rev).
Qed.

Lemma rstrip_split (s : pystr) :
  exists q, s = rstrip s ++ q /\ forallb is_space q = true.
Proof.
  destruct (lstrip_split (rev s)) as (p & Hs & Hp).
  exists (rev p). split; [|by rewrite forallb_space_rev].
  unfold rstrip. rewrite <- rev_app_distr, <- Hs. by rewrite rev_involutive.
Qed.

Lemma rstrip_last (s t : pystr) (c : char) :
  rstrip s = t ++ [c] -> is_space c = false.
Proof.
  unfold rstrip. intros H. apply (f_equal (@rev char)) in H.
  rewrite rev_involutive, rev_app_distr in H. by apply lstrip_head in H.
Qed.

Lemma rstrip_nonspace (t : pystr) (c : char) :
  is_space c = false -> rstrip (t ++ [c]) = t ++ [c].
Proof.
  intros H. unfold rstrip. rewrite rev_app_distr. cbn [rev app].
  rewrite lstrip_nonspace by done.
  change (c :: rev t) with (rev [c] ++ rev t).
  by rewrite <- rev_app_distr, rev_involutive.
Qed.

(** A string is its trimmed part between two runs of whitespace. *)
Lemma strip_split (s : pystr) :
  exists p q, s = p ++ strip s ++ q
              /\ forallb is_space p = true /\ forallb is_space q = true.
Proof.
  destruct (lstrip_split s) as (p & Hs & Hp).
  destruct (rstrip_split (lstrip s)) as (q & Hl & Hq).
  exists p, q. unfold strip. by rewrite <- Hl, <- Hs.
Qed.

(** The trimmed part neither starts nor ends with whitespace. *)
Lemma strip_ends (s : pystr) :
  (forall c t, strip s = c :: t -> is_space c = false)
  /\ (forall t c, strip s = t ++ [c] -> is_space c = false).
Proof.
  split; [|intros t c; apply rstrip_last].
  intros c t H. unfold strip in H.
  destruct (rstrip_split (lstrip s)) as (q & Hl & _).
  rewrite H in Hl. by apply lstrip_head in Hl.
Qed.

(** What stands between two runs of whitespace without starting or ending
    with whitespace is the trimmed part. *)
Lemma strip_unique (p t q : pystr) :
  forallb is_space p = true -> forallb is_space q = true ->
  (forall c t', t = c :: t' -> is_space c = false) ->
  (forall t' c, t = t' ++ [c] -> is_space c = false) ->
  strip (p ++ t ++ q) = t.
Proof.
  intros Hp Hq Hhead Hlast. unfold strip. rewrite lstrip_app_space by done.
  destruct t as [|c t].
  - cbn [app]. destruct (lstrip_split q) as (p' & Hq' & _).
    assert (lstrip q = []) as ->; [|done].
    rewrite Hq' in Hq. apply forallb_space_app in Hq as [_ Hq].
    destruct (lstrip q) as [|a l] eqn:E; [done|].
    apply lstrip_head in E. cbn in Hq. by rewrite E in Hq.
  - cbn [app]. rewrite lstrip_nonspace by eauto.
    change (c :: t ++ q) with ((c :: t) ++ q).
    rewrite rstrip_app_space by done.
    destruct (exists_last (l := c :: t) ltac:(done)) as (t' & a & Hta).
    rewrite Hta. apply rstrip_nonspace. by apply (Hlast t').
Qed.

Lemma strip_idem (s : pystr) : strip (strip s) = strip s.
Proof.
  destruct (strip_ends s) as [Hh Hl].
  rewrite <- (app_nil_r (strip s)) at 1.
  by apply (strip_unique [] (strip s) []).
Qed.

Lemma strip_nil_iff (s : pystr) :
  strip s = [] <-> forallb is_space s = true.
Proof.
  split.
  - intros H. destruct (strip_split s) as (p & q & Hs & Hp & Hq).
    rewrite H in Hs. rewrite Hs. cbn. by apply forallb_space_app.
  - intros H. rewrite <- (app_nil_r s).
    apply (strip_unique s [] []); [done..|]. by intros [|? ?] ?.
Qed.

Lemma strip_app_space (s q : pystr) :
  forallb is_space q = true -> strip (s ++ q) = strip s.
Proof.
  intros Hq. destruct (strip_split s) as (p & q0 & Hs & Hp & Hq0).
  destruct (strip_ends s) as [Hh Hl].
  rewrite Hs at 1. rewrite <- !app_assoc.
  apply strip_unique; [done|by apply forallb_space_app|done..].
Qed.

(** ** The bullet formatter: shape of the bullets and composition *)

(** A string none of whose non-empty suffixes, continued by [r], starts
    with the separator does not contain the separator. *)
Lemma no_occurrence (sep f r : pystr) :
  sep <> [] ->
  (forall l1 l2, f = l1 ++ l2 -> l2 <> [] -> starts_with sep (l2 ++ r) = false) ->
  contains sep f = false.
Proof.
  intros Hsep H. destruct (contains sep f) eqn:E; [|done].
  apply contains_spec in E as (l1 & l2 & ->).
  specialize (H l1 (sep ++ l2) eq_refl).
  rewrite <- app_assoc in H.
  assert (starts_with sep (sep ++ l2 ++ r) = true) as Ht
    by (apply starts_with_spec; eauto).
  rewrite H in Ht; [done|]. by destruct sep.
Qed.

Lemma split_from_fragments (sep s : pystr) :
  sep <> [] ->
  forall skip cur,
    (forall l1 l2, rev cur = l1 ++ l2 -> l2 <> [] ->
                   starts_with sep (l2 ++ drop skip s) = false) ->
    Forall (fun f => contains sep f = false) (split_from sep skip cur s).
Proof.
  intros Hsep. induction s as [|c s IH]; intros skip cur H.
  - cbn. constructor; [|done].
    apply (no_occurrence sep _ (drop skip [])); done.
  - cbn [split_from]. destruct skip as [|k]; [|by apply IH].
    destruct (starts_with sep (c :: s)) eqn:E.
    + constructor; [by apply (no_occurrence sep _ (c :: s))|].
      apply IH. intros l1 l2 Hl Hne. by destruct l1, l2.
    + apply IH. intros l1 l2 Hl Hne. cbn [rev] in Hl. rewrite drop_0.
      destruct (exists_last Hne) as (l2' & x & ->).
      rewrite app_assoc in Hl. apply app_inj_tail in Hl as [Hl <-].
      rewrite <- app_assoc. cbn [app].
      destruct l2' as [|a l2']; [done|]. by apply (H l1).
Qed.

(** No fragment of a split contains the separator. *)
Lemma split_fragments (sep s : pystr) :
  sep <> [] -> Forall (fun f => contains sep f = false) (split sep s).
Proof.
  intros Hsep. unfold split. destruct sep as [|a sep]; [done|].
  apply split_from_fragments; [done|]. intros l1 l2 Hl Hne. by destruct l1, l2.
Qed.

Lemma contains_strip (sep f : pystr) :
  contains sep f = false -> contains sep (strip f) = false.
Proof.
  intros H. destruct (contains sep (strip f)) eqn:E; [|done].
  apply contains_spec in E as (l1 & l2 & E).
  destruct (strip_split f) as (p & q & Hf & _).
  rewrite E in Hf.
  assert (contains sep f = true) as Ht; [|by rewrite H in Ht].
  apply contains_spec. exists (p ++ l1), (l2 ++ q).
  by rewrite Hf, <- !app_assoc.
Qed.

Lemma bullets_of_In (sentences : list pystr) (b : pystr) :
  In b (bullets_of sentences) ->
  exists f, In f sentences /\ b = bullet_marker ++ strip f
            /\ 5 < len (strip f).
Proof.
  induction sentences as [|s rest IH]; [done|]. cbn [bullets_of].
  destruct (5 <? len (strip s)) eqn:E.
  - intros [<-|Hb].
    + exists s. split; [by left|]. split; [done|lia].
    + destruct (IH Hb) as (f & Hf & Hrest). exists f. split; [by right|done].
  - intros Hb. destruct (IH Hb) as (f & Hf & Hrest).
    exists f. split; [by right|done].
Qed.

Lemma bullets_of_app (xs ys : list pystr) :
  bullets_of (xs ++ ys) = bullets_of xs ++ bullets_of ys.
Proof.
  induction xs as [|x xs IH]; [done|]. cbn.
  destruct (5 <? len (strip x)); by rewrite IH.
Qed.

(** X4. Shape of the bullets: every bullet is the marker followed by a
    body of more than 5 characters that has no whitespace at either end and
    does not contain the delimiter. *)
Theorem bullets_well_formed (summary b : pystr) :
  In b (to_bullets summary) ->
  exists body,
    b = bullet_marker ++ body /\ 5 < len body /\ strip body = body
    /\ contains (py ". ") body = false.
Proof.
  intros Hb. apply bullets_of_In in Hb as (f & Hf & -> & Hlen).
  exists (strip f). split; [done|]. split; [done|].
  split; [apply strip_idem|]. apply contains_strip.
  assert (py ". " <> []) as Hsep by (vm_compute; discriminate).
  pose proof (split_fragments (py ". ") summary Hsep) as Hall.
  rewrite List.Forall_forall in Hall. by apply Hall.
Qed.

Lemma bullets_well_formed_witness :
  In (bullet_marker ++ py "AI is great")
     (to_bullets (py "AI is great. Go. Study hard and review daily."))
  /\ exists body,
       bullet_marker ++ py "AI is great" = bullet_marker ++ body
       /\ 5 < len body /\ strip body = body
       /\ contains (py ". ") body = false.
Proof.
  assert (In (bullet_marker ++ py "AI is great")
             (to_bullets (py "AI is great. Go. Study hard and review daily.")))
    as Hin by (left; reflexivity).
  exact (conj Hin (bullets_well_formed _ _ Hin)).
Defined.

Lemma split_from_app_delimiter (a b : pystr) :
  forall skip cur,
    (skip <= length a)%nat ->
    split_from (py ". ") skip cur (a ++ py ". " ++ b)
    = split_from (py ". ") skip cur a ++ split_from (py ". ") 0 [] b.
Proof.
  change (py ". ") with [46%N; 32%N].
  induction a as [|c a IH]; intros skip cur Hskip.
  - cbn in Hskip. assert (skip = 0%nat) as -> by lia. reflexivity.
  - destruct skip as [|k]; [|cbn in Hskip; apply IH; lia].
    assert (starts_with [46%N; 32%N] ((c :: a) ++ [46%N; 32%N] ++ b)
            = starts_with [46%N; 32%N] (c :: a)) as Hsame.
    { destruct a as [|c2 a]; cbn; [|done].
      by destruct (46 =? c)%N. }
    change (split_from [46%N; 32%N] 0 cur ((c :: a) ++ [46%N; 32%N] ++ b))
      with (if starts_with [46%N; 32%N] ((c :: a) ++ [46%N; 32%N] ++ b)
            then rev cur :: split_from [46%N; 32%N] 1 [] (a ++ [46%N; 32%N] ++ b)
            else split_from [46%N; 32%N] 0 (c :: cur) (a ++ [46%N; 32%N] ++ b)).
    change (split_from [46%N; 32%N] 0 cur (c :: a))
      with (if starts_with [46%N; 32%N] (c :: a)
            then rev cur :: split_from [46%N; 32%N] 1 [] a
            else split_from [46%N; 32%N] 0 (c :: cur) a).
    rewrite Hsame. destruct (starts_with [46%N; 32%N] (c :: a)) eqn:E.
    + rewrite IH; [done|]. destruct a; [|cbn; lia].
      cbn in E. by rewrite andb_false_r in E.
    + by rewrite IH by lia.
Qed.

(** X5. Bullets compose over the delimiter: the bullets of two summaries
    joined by a period and a space are the bullets of the first followed by
    the bullets of the second. *)
Theorem to_bullets_app (a b : pystr) :
  to_bullets (a ++ py ". " ++ b) = to_bullets a ++ to_bullets b.
Proof.
  unfold to_bullets, split.
  change (py ". ") with [46%N; 32%N] at 1 3 5.
  cbv beta iota.
  change [46%N; 32%N] with (py ". ").
  rewrite split_from_app_delimiter by lia.
  apply bullets_of_app.
Qed.

(** ** Text extraction from a PDF *)

Lemma extract_loop_lines (file : pdf) (text : pystr) :
  extract_loop file text
  = text ++ concat (map (fun t => t ++ [10%N]) (page_texts file)).
Proof.
  revert text. induction file as [|page_text file IH]; intros text.
  - cbn. by rewrite app_nil_r.
  - cbn [extract_loop page_texts flat_map].
    destruct page_text as [t|]; [|apply IH].
    destruct (truthy t); [|apply IH].
    rewrite IH. cbn. by rewrite <- !app_assoc.
Qed.

Lemma concat_lines (sep : pystr) (ts : list pystr) :
  ts <> [] -> concat (map (fun t => t ++ sep) ts) = join sep ts ++ sep.
Proof.
  induction ts as [|x ts IH]; [done|]. intros _.
  destruct ts as [|y ts]; [cbn; by rewrite app_nil_r|].
  change (concat (map (fun t => t ++ sep) (x :: y :: ts)))
    with ((x ++ sep) ++ concat (map (fun t => t ++ sep) (y :: ts))).
  rewrite IH by done. rewrite (join_cons sep x (y :: ts)) by done.
  by rewrite <- !app_assoc.
Qed.

(** X6. The extracted text is the texts of the pages that have one, joined
    by newlines and trimmed; pages without text leave no trace, not even a
    newline. *)
Theorem extract_text_joined (file : pdf) :
  extract_text_from_pdf file = strip (join [10%N] (page_texts file)).
Proof.
  unfold extract_text_from_pdf. rewrite extract_loop_lines. cbn [app].
  destruct (page_texts file) as [|t ts] eqn:E; [reflexivity|].
  rewrite concat_lines by done. by apply strip_app_space.
Qed.

Lemma extract_loop_blank (file : pdf) (text : pystr) :
  forallb is_space (extract_loop file text) = true
  <-> forallb is_space text = true /\ forallb blank_page file = true.
Proof.
  revert text. induction file as [|page_text file IH]; intros text.
  - cbn. tauto.
  - cbn [extract_loop forallb]. rewrite andb_true_iff.
    destruct page_text as [t|]; cbn [blank_page].
    + destruct t as [|c t]; cbn [truthy]; [rewrite IH; cbn; tauto|].
      rewrite IH, !forallb_space_app. cbn [forallb is_space].
      rewrite (andb_true_iff _ true). tauto.
    + rewrite IH. tauto.
Qed.

(** Nothing is extracted from blank pages. *)
Lemma extract_text_blank (file : pdf) :
  forallb blank_page file = true -> extract_text_from_pdf file = [].
Proof.
  intros H. apply strip_nil_iff, extract_loop_blank. by split.
Qed.

(** X7. The extracted text is empty exactly when every page is blank:
    nothing is read from it, or only whitespace. *)
Theorem extract_text_empty_iff (file : pdf) :
  extract_text_from_pdf file = [] <-> forallb blank_page file = true.
Proof.
  unfold extract_text_from_pdf.
  rewrite strip_nil_iff, extract_loop_blank. cbn. tauto.
Qed.

(** X8. The extracted text is trimmed: it neither starts nor ends with
    whitespace, and trimming it again changes nothing. *)
Theorem extract_text_trimmed (file : pdf) :
  strip (extract_text_from_pdf file) = extract_text_from_pdf file
  /\ (forall c t, extract_text_from_pdf file = c :: t -> is_space c = false)
  /\ (forall t c, extract_text_from_pdf file = t ++ [c] -> is_space c = false).
Proof.
  unfold extract_text_from_pdf. split; [apply strip_idem|apply strip_ends].
Qed.

Example extract_text_example :
  extract_text_from_pdf
    [Some (py " Page one "); None; Some []; Some (py "Page two"); Some (py "  ")]
  = py "Page one " ++ [10%N] ++ py "Page two".
Proof. reflexivity. Qed.

(** ** The summary assembler: every outcome *)

Section Outcomes.

Context {W : Type}.
Variable summarizer : pystr -> Z -> Z -> bool -> W -> result pipeline_output * W.
Variables MAX_LEN MIN_LEN : Z.

Local Abbreviation answers := (answers summarizer MAX_LEN MIN_LEN).
Local Abbreviation chunk_fails := (chunk_fails summarizer MAX_LEN MIN_LEN).
Local Abbreviation run_text := (summarize_text summarizer MAX_LEN MIN_LEN).
Local Abbreviation after_calls := (@after_calls W MAX_LEN MIN_LEN).

(** Either the call for every chunk answers, or there is a first chunk
    whose call fails. *)
Lemma answers_or_fails (chunks : list pystr) (w : W) :
  (exists summaries w', answers w chunks summaries w')
  \/ (exists pre chunk post summaries w1 e w2,
        chunks = pre ++ chunk :: post
        /\ answers w pre summaries w1 /\ chunk_fails w1 chunk e w2).
Proof.
  revert w. induction chunks as [|chunk chunks IH]; intros w.
  - left. exists [], w. apply answers_nil.
  - destruct (summarizer chunk MAX_LEN MIN_LEN false w) as [[out|e] w1] eqn:Hcall.
    + destruct out as [|first more].
      { right.
        exists [], chunk, chunks, [], w,
          (IndexError (py "list index out of range")), w1.
        split; [done|]. split; [apply answers_nil|by apply fails_empty]. }
      destruct (first !! py "summary_text") as [summary|] eqn:Hkey.
      * destruct (IH w1) as [(summaries & w' & Hall)
                            |(pre & c & post & summaries & w2 & e & w3
                              & -> & Hpre & Hfail)].
        -- left. exists (summary :: summaries), w'. by eapply answers_cons.
        -- right. exists (chunk :: pre), c, post, (summary :: summaries), w2, e, w3.
           split; [done|]. split; [by eapply answers_cons|done].
      * right.
        exists [], chunk, chunks, [], w, (KeyError (py "summary_text")), w1.
        split; [done|]. split; [apply answers_nil|by eapply fails_no_summary].
    + right. exists [], chunk, chunks, [], w, e, w1.
      split; [done|]. split; [apply answers_nil|by apply fails_raise].
Qed.

Lemma summarize_text_cases (text : pystr) (st : state W) :
  exists chunks,
    chunk_text text default_chunk_size = Ok chunks
    /\ ((exists summaries w',
           answers (world st) chunks summaries w'
           /\ run_text text st
              = (Ok (join (py " ") summaries), after_calls st chunks w'))
        \/ (exists pre chunk post summaries w1 e w2,
              chunks = pre ++ chunk :: post
              /\ answers (world st) pre summaries w1
              /\ chunk_fails w1 chunk e w2
              /\ run_text text st
                 = (Raise e, after_calls st (pre ++ [chunk]) w2))).
Proof.
  eexists. split; [by apply chunk_text_pos|].
  set (chunks := map _ _).
  assert (chunk_text text default_chunk_size = Ok chunks) as Hchunks
    by (by apply chunk_text_pos).
  rewrite (summarize_text_unfold _ _ _ _ _ _ Hchunks).
  destruct (answers_or_fails chunks (world st))
    as [(summaries & w' & Hall)
       |(pre & c & post & summaries & w1 & e & w2 & Hsplit & Hpre & Hfail)].
  - left. exists summaries, w'. split; [done|].
    by rewrite (summarize_loop_answers _ _ _ _ _ _ _ [] Hall).
  - right. exists pre, c, post, summaries, w1, e, w2.
    split; [done|]. split; [done|]. split; [done|]. rewrite Hsplit.
    by rewrite (summarize_loop_stops _ _ _ pre c post summaries st [] w1 e w2
                  Hpre Hfail).
Qed.

End Outcomes.

(** X9. What an outcome tells: a returned summary means that the call for
    every chunk answered, and it is the answers joined by spaces; a raised
    error is the error of a call that failed after the calls for all the
    chunks before it answered. *)
Theorem summarize_text_outcome {W : Type}
    (summarizer : pystr -> Z -> Z -> bool -> W -> result pipeline_output * W)
    (MAX_LEN MIN_LEN : Z) (text : pystr) (st st' : state W)
    (r : result pystr) :
  summarize_text summarizer MAX_LEN MIN_LEN text st = (r, st') ->
  match r with
  | Ok summary =>
      exists chunks summaries,
        chunk_text text default_chunk_size = Ok chunks
        /\ answers summarizer MAX_LEN MIN_LEN (world st) chunks summaries
             (world st')
        /\ summary = join (py " ") summaries
  | Raise e =>
      exists pre chunk post summaries w1,
        chunk_text text default_chunk_size = Ok (pre ++ chunk :: post)
        /\ answers summarizer MAX_LEN MIN_LEN (world st) pre summaries w1
        /\ chunk_fails summarizer MAX_LEN MIN_LEN w1 chunk e (world st')
  end.
Proof.
  intros Hrun.
  destruct (summarize_text_cases summarizer MAX_LEN MIN_LEN text st)
    as (chunks & Hchunks
        & [(summaries & w' & Hall & Heq)
          |(pre & c & post & summaries & w1 & e & w2 & -> & Hpre & Hfail & Heq)]);
    rewrite Heq in Hrun; injection Hrun as <- <-; cbn [world after_calls].
  - by exists chunks, summaries.
  - by exists pre, c, post, summaries, w1.
Qed.

Lemma summarize_text_outcome_witness :
  summarize_text flaky_provider 60 20 long_text (State 0%nat [] [])
  = (Raise (OtherError (py "RuntimeError") (py "model failed")),
     State 2%nat [Call (repeat 97%N 1000) 60 20 false;
                  Call (py "b") 60 20 false] [])
  /\ exists pre chunk post summaries w1,
       chunk_text long_text default_chunk_size = Ok (pre ++ chunk :: post)
       /\ answers flaky_provider 60 20 0%nat pre summaries w1
       /\ chunk_fails flaky_provider 60 20 w1 chunk
            (OtherError (py "RuntimeError") (py "model failed")) 2%nat.
Proof.
  assert (summarize_text flaky_provider 60 20 long_text (State 0%nat [] [])
          = (Raise (OtherError (py "RuntimeError") (py "model failed")),
             State 2%nat [Call (repeat 97%N 1000) 60 20 false;
                          Call (py "b") 60 20 false] [])) as Hrun
    by (vm_compute; reflexivity).
  exact (conj Hrun
    (summarize_text_outcome flaky_provider 60 20 long_text _ _ _ Hrun)).
Defined.

(** X10. What a request does to the pipeline and to the page: the calls it
    makes are the calls for the first chunks of the text, in chunk order and
    without a gap, each with [MAX_LEN], [MIN_LEN] and sampling off; all the
    chunks are sent when it succeeds; and it shows nothing. *)
Theorem summarize_text_calls {W : Type}
    (summarizer : pystr -> Z -> Z -> bool -> W -> result pipeline_output * W)
    (MAX_LEN MIN_LEN : Z) (text : pystr) (st : state W) :
  exists chunks n,
    chunk_text text default_chunk_size = Ok chunks
    /\ (n <= length chunks)%nat
    /\ calls (snd (summarize_text summarizer MAX_LEN MIN_LEN text st))
       = calls st ++ map (fun chunk => Call chunk MAX_LEN MIN_LEN false)
                         (take n chunks)
    /\ shown (snd (summarize_text summarizer MAX_LEN MIN_LEN text st))
       = shown st
    /\ (forall summary,
          fst (summarize_text summarizer MAX_LEN MIN_LEN text st) = Ok summary ->
          n = length chunks).
Proof.
  destruct (summarize_text_cases summarizer MAX_LEN MIN_LEN text st)
    as (chunks & Hchunks
        & [(summaries & w' & Hall & ->)
          |(pre & c & post & summaries & w1 & e & w2 & -> & Hpre & Hfail & ->)]).
  - exists chunks, (length chunks). split; [done|]. split; [done|].
    cbn. by rewrite firstn_all.
  - exists (pre ++ c :: post), (S (length pre)). split; [done|].
    split; [rewrite length_app; cbn; lia|]. cbn.
    split; [|done]. do 2 f_equal.
    rewrite (cons_middle c pre post), app_assoc.
    rewrite take_app_length'; [done|]. rewrite length_app. cbn. lia.
Qed.

(** ** The two buttons *)

Section Handlers.

Context {W : Type}.
Variable summarizer : pystr -> Z -> Z -> bool -> W -> result pipeline_output * W.
Variables MAX_LEN MIN_LEN : Z.





End Handlers.


(** X12. Blank input: when the typed input holds nothing but whitespace,
    the summarize button only shows its warning, and so does the notes
    button when no text was extracted; the pipeline is not called. *)
Theorem blank_input_only_warns {W : Type}
    (summarizer : pystr -> Z -> Z -> bool -> W -> result pipeline_output * W)
    (MAX_LEN MIN_LEN : Z) (user_input : pystr) (st : state W) :
  forallb is_space user_input = true ->
  generate_study_notes summarizer MAX_LEN MIN_LEN user_input [] st
  = (Ok tt,
     with_shown st [StWarning (py "Please enter text or upload a PDF.")])
  /\ summarize_button summarizer MAX_LEN MIN_LEN user_input st
     = (Ok tt,
        with_shown st [StWarning (py "Please enter text to summarize.")]).
Proof.
  intros H. apply strip_nil_iff in H.
  unfold generate_study_notes, summarize_button. by rewrite H.
Qed.

Lemma blank_input_only_warns_witness :
  forallb is_space (py "   ") = true
  /\ generate_study_notes initial_provider 60 20 (py "   ") []
       (State 0%nat [] [])
     = (Ok tt,
        State 0%nat [] [StWarning (py "Please enter text or upload a PDF.")])
  /\ summarize_button initial_provider 60 20 (py "   ") (State 0%nat [] [])
     = (Ok tt,
        State 0%nat [] [StWarning (py "Please enter text to summarize.")]).
Proof.
  assert (forallb is_space (py "   ") = true) as H by reflexivity.
  exact (conj H (blank_input_only_warns initial_provider 60 20 (py "   ")
                   (State 0%nat [] []) H)).
Defined.





(** X15. A PDF all of whose pages are blank counts as no upload: the notes
    button does with it exactly what it does when no file was uploaded. *)
Theorem blank_pdf_as_no_upload {W : Type}
    (summarizer : pystr -> Z -> Z -> bool -> W -> result pipeline_output * W)
    (MAX_LEN MIN_LEN : Z) (file : pdf) (user_input : pystr) (st : state W) :
  forallb blank_page file = true ->
  generate_study_notes summarizer MAX_LEN MIN_LEN user_input
    (uploaded_text (Some file)) st
  = generate_study_notes summarizer MAX_LEN MIN_LEN user_input
      (uploaded_text None) st.
Proof.
  intros H. cbn [uploaded_text]. by rewrite (extract_text_blank file H).
Qed.

Lemma blank_pdf_as_no_upload_witness :
  forallb blank_page [None; Some (py "  "); Some []] = true
  /\ generate_study_notes echo_provider 60 20 (py "Revise daily")
       (uploaded_text (Some [None; Some (py "  "); Some []])) (State tt [] [])
     = generate_study_notes echo_provider 60 20 (py "Revise daily")
         (uploaded_text None) (State tt [] []).
Proof.
  assert (forallb blank_page [None; Some (py "  "); Some []] = true) as H
    by reflexivity.
  exact (conj H (blank_pdf_as_no_upload echo_provider 60 20 _
                   (py "Revise daily") (State tt [] []) H)).
Defined.

(** ** Summaries of concatenated texts *)

Lemma join_app (sep : pystr) (xs ys : list pystr) :
  xs <> [] -> ys <> [] ->
  join sep (xs ++ ys) = join sep xs ++ sep ++ join sep ys.
Proof.
  intros Hxs Hys. induction xs as [|x xs IH]; [done|].
  destruct xs as [|x' xs].
  - cbn [app]. by rewrite join_cons.
  - change ((x :: x' :: xs) ++ ys) with (x :: (x' :: xs) ++ ys).
    rewrite (join_cons sep x ((x' :: xs) ++ ys)) by done.
    rewrite IH by done. rewrite (join_cons sep x (x' :: xs)) by done.
    by rewrite <- !app_assoc.
Qed.

Lemma chunks_not_nil (text : pystr) (size : Z) (chunks : list pystr) :
  0 < size -> text <> [] -> chunk_text text size = Ok chunks -> chunks <> [].
Proof.
  intros Hs Hne Hc. rewrite chunk_text_pos in Hc by done.
  injection Hc as <-.
  pose proof (proj1 (ceil_div_spec (len text) size _ Hs) eq_refl) as Hn.
  assert (0 < len text) as Hl by (destruct text; [done|unfold len; cbn; lia]).
  destruct (Z.to_nat (ceil_div (len text) size)) as [|n] eqn:E; [nia|done].
Qed.

Section Stateless.

Context {W : Type}.
Variable summarizer : pystr -> Z -> Z -> bool -> W -> result pipeline_output * W.
Variables MAX_LEN MIN_LEN : Z.
Variable f : pystr -> pystr.

(** The pipeline keeps no state and answers every text [t] with [f t]. *)
Hypothesis stateless :
  forall t w, exists first more,
    summarizer t MAX_LEN MIN_LEN false w = (Ok (first :: more), w)
    /\ first !! py "summary_text" = Some (f t).

Lemma summarize_text_stateless (text : pystr) (chunks : list pystr)
    (st : state W) :
  chunk_text text default_chunk_size = Ok chunks ->
  fst (summarize_text summarizer MAX_LEN MIN_LEN text st)
  = Ok (join (py " ") (map f chunks)).
Proof.
  intros Hchunks.
  rewrite (summarize_text_unfold _ _ _ _ _ _ Hchunks).
  pose proof (answers_stateless summarizer MAX_LEN MIN_LEN f (world st) chunks
                (fun t => stateless t (world st))) as Hall.
  by rewrite (summarize_loop_answers _ _ _ _ _ _ _ [] Hall).
Qed.

End Stateless.

(** X16. Summaries compose at chunk boundaries: with a pipeline that keeps
    no state and answers every text [t] with [f t], when neither text is
    empty and the length of [a] is a multiple of 1000, the summary of
    [a ++ b] is the summary of [a], a space, and the summary of [b]. *)
Theorem summarize_text_app {W : Type}
    (summarizer : pystr -> Z -> Z -> bool -> W -> result pipeline_output * W)
    (MAX_LEN MIN_LEN : Z) (f : pystr -> pystr) (a b : pystr) (k : Z)
    (st : state W) :
  (forall t w, exists first more,
      summarizer t MAX_LEN MIN_LEN false w = (Ok (first :: more), w)
      /\ first !! py "summary_text" = Some (f t)) ->
  a <> [] -> b <> [] -> len a = k * default_chunk_size ->
  exists sa sb,
    fst (summarize_text summarizer MAX_LEN MIN_LEN a st) = Ok sa
    /\ fst (summarize_text summarizer MAX_LEN MIN_LEN b st) = Ok sb
    /\ fst (summarize_text summarizer MAX_LEN MIN_LEN (a ++ b) st)
       = Ok (sa ++ py " " ++ sb).
Proof.
  intros Hf Ha Hb Hk.
  assert (0 < default_chunk_size) as Hs by done.
  destruct (chunk_text a default_chunk_size) as [ca|] eqn:Hca;
    [|by rewrite chunk_text_pos in Hca].
  destruct (chunk_text b default_chunk_size) as [cb|] eqn:Hcb;
    [|by rewrite chunk_text_pos in Hcb].
  assert (chunk_text (a ++ b) default_chunk_size = Ok (ca ++ cb)) as Hab.
  { rewrite chunk_text_pos in Hca, Hcb |- * by done.
    injection Hca as <-. injection Hcb as <-.
    f_equal. by eapply chunk_list_app. }
  exists (join (py " ") (map f ca)), (join (py " ") (map f cb)).
  rewrite (summarize_text_stateless _ _ _ f Hf a ca st Hca).
  rewrite (summarize_text_stateless _ _ _ f Hf b cb st Hcb).
  rewrite (summarize_text_stateless _ _ _ f Hf (a ++ b) _ st Hab).
  split; [done|]. split; [done|]. f_equal. rewrite map_app.
  apply join_app.
  - pose proof (chunks_not_nil a _ ca Hs Ha Hca). by destruct ca.
  - pose proof (chunks_not_nil b _ cb Hs Hb Hcb). by destruct cb.
Qed.

Lemma summarize_text_app_witness :
  (forall t w, exists first more,
      echo_provider t 60 20 false w = (Ok (first :: more), w)
      /\ first !! py "summary_text" = Some (take 1 t))
  /\ repeat 97%N 1000 <> [] /\ py "b" <> []
  /\ len (repeat 97%N 1000) = 1 * default_chunk_size
  /\ exists sa sb,
       fst (summarize_text echo_provider 60 20 (repeat 97%N 1000)
              (State tt [] [])) = Ok sa
       /\ fst (summarize_text echo_provider 60 20 (py "b")
                 (State tt [] [])) = Ok sb
       /\ fst (summarize_text echo_provider 60 20
                 (repeat 97%N 1000 ++ py "b") (State tt [] []))
          = Ok (sa ++ py " " ++ sb).
Proof.
  assert (forall t w, exists first more,
            echo_provider t 60 20 false w = (Ok (first :: more), w)
            /\ first !! py "summary_text" = Some (take 1 t)) as Hf.
  { intros t w. eexists _, _. split; [reflexivity|apply lookup_singleton_eq]. }
  assert (repeat 97%N 1000 <> []) as Ha by discriminate.
  assert (py "b" <> []) as Hb by discriminate.
  assert (len (repeat 97%N 1000) = 1 * default_chunk_size) as Hk
    by (vm_compute; reflexivity).
  exact (conj Hf (conj Ha (conj Hb (conj Hk
    (summarize_text_app echo_provider 60 20 (take 1) _ _ 1 (State tt [] [])
       Hf Ha Hb Hk))))).
Defined.

(** ** The length table and the select box *)

(** The table holds the three pairs and nothing else. *)
Lemma resolve_policy_inv (tier : pystr) (policy : Z * Z) :
  resolve_policy tier = Ok policy ->
  (tier = py "Short" /\ policy = (60, 20))
  \/ (tier = py "Medium" /\ policy = (120, 40))
  \/ (tier = py "Detailed" /\ policy = (200, 70)).
Proof.
  unfold resolve_policy, getitem, length_map.
  destruct (decide (tier = py "Short")) as [->|H1].
  { rewrite lookup_insert_eq. intros [= <-]. by left. }
  rewrite lookup_insert_ne by done.
  destruct (decide (tier = py "Medium")) as [->|H2].
  { rewrite lookup_insert_eq. intros [= <-]. right. by left. }
  rewrite lookup_insert_ne by done.
  destruct (decide (tier = py "Detailed")) as [->|H3].
  { rewrite lookup_insert_eq. intros [= <-]. right. by right. }
  by rewrite lookup_insert_ne, lookup_empty by done.
Qed.

(** X17. The select box and the table agree: the tiers that resolve are
    exactly the options offered, so that reading the pair of the selected
    option cannot raise [KeyError]. *)
Theorem options_are_the_keys (tier : pystr) :
  In tier summary_options <-> exists policy, resolve_policy tier = Ok policy.
Proof.
  split.
  - intros [<-|[<-|[<-|[]]]]; eexists; vm_compute; reflexivity.
  - intros [policy H].
    destruct (resolve_policy_inv tier policy H) as [[-> _]|[[-> _]|[-> _]]];
      cbn; tauto.
Qed.

(** X18. Every pair of the table is a usable range: the minimal length is
    positive and below the maximal length. *)
Theorem policy_bounds (tier : pystr) (max_length min_length : Z) :
  resolve_policy tier = Ok (max_length, min_length) ->
  0 < min_length < max_length.
Proof.
  intros H.
  destruct (resolve_policy_inv tier _ H) as [[_ E]|[[_ E]|[_ E]]];
    injection E as -> ->; lia.
Qed.

Lemma policy_bounds_witness :
  resolve_policy (py "Medium") = Ok (120, 40) /\ 0 < 40 < 120.
Proof.
  assert (resolve_policy (py "Medium") = Ok (120, 40)) as H
    by (vm_compute; reflexivity).
  exact (conj H (policy_bounds (py "Medium") 120 40 H)).
Defined.
